(** * Tic-tac-toe (client/src/App.tsx): the game engine and its properties

    A shallow embedding of the game logic of [App.tsx]: the win-line table
    [LINES], [getWinner], the derived values [winnerInfo], [draw], [gameOver]
    and [status], and the three event handlers [resetGame], [playAt] and
    [onKeyDown].  The React state of the component is the pair
    ([board], [current]); every handler runs against the state of the render
    it was created in and its [setBoard]/[setCurrent] calls produce the state
    of the next render, so a handler is a function [State -> State]. *)

From Stdlib Require Import String Ascii.
From stdpp Require Import base list strings gmap.

(** ** Data model *)

(** [type Player = "X" | "O"] *)
Inductive Player := X | O.

#[global] Instance Player_eq_dec : EqDecision Player.
Proof. solve_decision. Defined.

(** [type Cell = Player | null] *)
Inductive Cell := Null | Mark (p : Player).

#[global] Instance Cell_eq_dec : EqDecision Cell.
Proof. solve_decision. Defined.

(** What reading [board[i]] can produce at run time: a [Cell], or
    [undefined] when [i] is not an index of the array (or names a hole). *)
Inductive Value := Undefined | Val (c : Cell).

#[global] Instance Value_eq_dec : EqDecision Value.
Proof. solve_decision. Defined.

(** One position of a JavaScript array: an element, or a hole (an index
    below [length] that was never written).  [Array(9)] is nine holes;
    writing past the end leaves holes between the old end and the new
    element. *)
Inductive Slot := Hole | Elem (v : Value).

#[global] Instance Slot_eq_dec : EqDecision Slot.
Proof. solve_decision. Defined.

Abbreviation Board := (list Slot).

(** A board written cell by cell, as the type [Cell[]] promises it. *)
Definition of_cells (cs : list Cell) : Board := (λ c, Elem (Val c)) <$> cs.

(** ** JavaScript primitives used by the component *)

(** [board[i]] *)
Definition index (board : Board) (i : nat) : Value :=
  match board !! i with
  | Some (Elem v) => v
  | Some Hole | None => Undefined
  end.

(** Truthiness: [undefined] and [null] are falsy, the non-empty strings
    ["X"] and ["O"] are truthy. *)
Definition truthy (v : Value) : bool :=
  match v with
  | Val (Mark _) => true
  | Val Null | Undefined => false
  end.

(** [v === w] *)
Definition strict_eq (v w : Value) : bool := bool_decide (v = w).

(** [Array(n)] *)
Definition Array (n : nat) : Board := replicate n Hole.

(** [arr.fill(c)]: every index below [length], holes included. *)
Definition fill (c : Cell) (arr : Board) : Board := (λ _, Elem (Val c)) <$> arr.

(** [[...arr]]: the iterator reads a hole as [undefined], so the copy has
    an element where the original had a hole. *)
Definition spread (arr : Board) : Board :=
  (λ s, match s with Hole => Elem Undefined | Elem v => Elem v end) <$> arr.

(** [arr[i] = c] on an array: in range it replaces the element, past the
    end the array grows to length [i + 1] with holes in between. *)
Definition array_set (arr : Board) (i : nat) (c : Cell) : Board :=
  if decide (i < length arr) then <[i := Elem (Val c)]> arr
  else arr ++ replicate (i - length arr) Hole ++ [Elem (Val c)].

(** [arr.every(f)]: holes are skipped. *)
Definition every (f : Value → bool) (arr : Board) : bool :=
  forallb (λ s, match s with Hole => true | Elem v => f v end) arr.

(** [c !== null] *)
Definition not_null (v : Value) : bool :=
  match v with
  | Val Null => false
  | _ => true
  end.

(** [String.prototype.toLowerCase], on the ASCII letters. *)
Definition lower_ascii (c : ascii) : ascii :=
  let n := nat_of_ascii c in
  if (65 <=? n) && (n <=? 90) then ascii_of_nat (n + 32) else c.

Fixpoint toLowerCase (s : string) : string :=
  match s with
  | EmptyString => EmptyString
  | String c s' => String (lower_ascii c) (toLowerCase s')
  end.

(** ** The win lines and [getWinner] *)

Definition LINES : list (list nat) :=
  [ [0; 1; 2];
    [3; 4; 5];
    [6; 7; 8];
    [0; 3; 6];
    [1; 4; 7];
    [2; 5; 8];
    [0; 4; 8];
    [2; 4; 6] ].

(** [{ winner: Player; line: number[] }] *)
Record WinnerInfo := { winner : Player; line : list nat }.

#[global] Instance WinnerInfo_eq_dec : EqDecision WinnerInfo.
Proof. solve_decision. Defined.

(** The body of the [for] loop of [getWinner] for one [line]:
    [Some] is the [return], [None] falls through to the next iteration.
    [v && ...] holds only for a mark.  A line with fewer than three entries
    would destructure [b] or [c] to [undefined], the read [board[undefined]]
    is [undefined], which no mark equals: the test fails. *)
Definition check_line (board : Board) (l : list nat) : option WinnerInfo :=
  match l with
  | a :: b :: c :: _ =>
      let v := index board a in
      match v with
      | Val (Mark p) =>
          if strict_eq v (index board b) && strict_eq v (index board c)
          then Some {| winner := p; line := l |}
          else None
      | _ => None
      end
  | _ => None
  end.

(** [for (const line of lines) { ... }  return null] *)
Fixpoint getWinner_from (lines : list (list nat)) (board : Board)
  : option WinnerInfo :=
  match lines with
  | [] => None
  | l :: rest =>
      match check_line board l with
      | Some w => Some w
      | None => getWinner_from rest board
      end
  end.

Definition getWinner (board : Board) : option WinnerInfo :=
  getWinner_from LINES board.

(** ** The component state and its derived values *)

(** [const [board, setBoard] = useState(...)],
    [const [current, setCurrent] = useState(...)] *)
Record State := { board : Board; current : Player }.

(** [useState<Cell[]>(Array(9).fill(null))], [useState<Player>("X")] *)
Definition initial : State :=
  {| board := fill Null (Array 9); current := X |}.

Definition winnerInfo (s : State) : option WinnerInfo := getWinner (board s).

(** [board.every((c) => c !== null) && !winnerInfo] *)
Definition draw (s : State) : bool :=
  every not_null (board s) && negb (bool_decide (is_Some (winnerInfo s))).

(** [Boolean(winnerInfo) || draw] *)
Definition gameOver (s : State) : bool :=
  bool_decide (is_Some (winnerInfo s)) || draw s.

(** ** Event handlers *)

Definition resetGame (_ : State) : State :=
  {| board := fill Null (Array 9); current := X |}.

(** [(p) => (p === "X" ? "O" : "X")] *)
Definition flip (p : Player) : Player :=
  match p with X => O | O => X end.

(** [idx] is an array index: the buttons pass 0 to 8, and nothing in
    [playAt] restricts it further. *)
Definition playAt (s : State) (idx : nat) : State :=
  if gameOver s || truthy (index (board s) idx) then s
  else
    let next := spread (board s) in
    let next := array_set next idx (Mark (current s)) in
    {| board := next; current := flip (current s) |}.

(** [KeyboardEvent], of which the handler reads [key] only. *)
Record KeyboardEvent := { key : string }.

Definition onKeyDown (s : State) (e : KeyboardEvent) : State :=
  let k := toLowerCase (key e) in
  if String.eqb k "r" then resetGame s else s.

(** ** Status line *)

(** A [Player] is its own text in a template literal. *)
Definition player_text (p : Player) : string :=
  match p with X => "X" | O => "O" end.

Definition status (s : State) : string :=
  match winnerInfo s with
  | Some w => "Player " +:+ player_text (winner w) +:+ " wins"
  | None =>
      if draw s then "Draw game"
      else "Player " +:+ player_text (current s) +:+ "'s turn"
  end.

(** ** Vocabulary of the specification *)

(** The outcome of a board: ongoing, won (with the line), or drawn. *)
Inductive Outcome :=
  | NoOutcome
  | Win (p : Player) (l : list nat)
  | Draw.

#[global] Instance Outcome_eq_dec : EqDecision Outcome.
Proof. solve_decision. Defined.

(** The evaluator of the specification is not a function of the source: it
    is [getWinner] followed by the full-board test of [draw], read in the
    order in which [status] reads them. *)
Definition evaluate (b : Board) : Outcome :=
  match getWinner b with
  | Some w => Win (winner w) (line w)
  | None => if every not_null b then Draw else NoOutcome
  end.

(** A board as the specification has it: nine cells, each [null], ["X"]
    or ["O"]. *)
Definition is_cell (s : Slot) : bool :=
  match s with
  | Elem (Val _) => true
  | Elem Undefined | Hole => false
  end.

Definition is_board9 (b : Board) : bool :=
  bool_decide (length b = 9) && forallb is_cell b.

(** Mark [p] sits on every cell of line [l]. *)
Definition three_in_line (b : Board) (l : list nat) (p : Player) : Prop :=
  Forall (λ i, index b i = Val (Mark p)) l.

(** The win lines in the words of the specification: the board is
    row-major, and the order is rows top to bottom, columns left to right,
    then the diagonal from cell 0 and the diagonal from cell 2. *)
Definition row (r : nat) : list nat := [3 * r; 3 * r + 1; 3 * r + 2].
Definition column (c : nat) : list nat := [c; c + 3; c + 6].
Definition diagonal : list nat := [0; 4; 8].
Definition antidiagonal : list nat := [2; 4; 6].

Definition WinLines : list (list nat) :=
  (row <$> [0; 1; 2]) ++ (column <$> [0; 1; 2]) ++ [diagonal; antidiagonal].

(** Some win line holds three identical marks. *)
Definition has_line (b : Board) : Prop :=
  ∃ l p, l ∈ WinLines ∧ three_in_line b l p.

(** [l], at position [k] of that order, is the first line that holds
    three identical marks. *)
Definition first_line (b : Board) (k : nat) (l : list nat) (p : Player) : Prop :=
  WinLines !! k = Some l ∧ three_in_line b l p ∧
  ∀ j l' p', j < k → WinLines !! j = Some l' → ¬ three_in_line b l' p'.

(** Every cell of the board carries a mark. *)
Definition full (b : Board) : Prop :=
  ∀ i, i < length b → ∃ p, index b i = Val (Mark p).

(** Number of cells marked [p]. *)
Definition marks (p : Player) (b : Board) : nat :=
  length (filter (λ s, s = Elem (Val (Mark p))) b).

(** States the user can bring about: clicks on the nine buttons and
    restarts, from the first render. *)
Inductive reachable : State → Prop :=
  | reach_initial : reachable initial
  | reach_playAt s idx : reachable s → idx < 9 → reachable (playAt s idx)
  | reach_resetGame s : reachable s → reachable (resetGame s).

(** A sequence of clicks. *)
Definition play_all (s : State) (idxs : list nat) : State :=
  foldl playAt s idxs.

(** ** What the render shows *)

(** [new Set(winnerInfo?.line ?? [])] *)
Definition winningSet (s : State) : gset nat :=
  list_to_set (match winnerInfo s with
               | Some w => line w
               | None => []
               end).

(** [winningSet.has(idx)] *)
Definition isWinning (s : State) (idx : nat) : bool :=
  bool_decide (idx ∈ winningSet s).

(** [cell === "X" ? "text-blue-600" : cell === "O" ? "text-red-600"
      : "text-transparent"] *)
Definition cellText (cell : Value) : string :=
  if strict_eq cell (Val (Mark X)) then "text-blue-600"
  else if strict_eq cell (Val (Mark O)) then "text-red-600"
  else "text-transparent".

(** [gameOver || cell !== null] *)
Definition disabled (s : State) (cell : Value) : bool :=
  gameOver s || not_null cell.

Definition badgeClass (s : State) : string :=
  match winnerInfo s with
  | Some w =>
      if bool_decide (winner w = X) then "bg-blue-600 text-white"
      else "bg-red-600 text-white"
  | None =>
      if draw s then "bg-slate-600 text-white"
      else if bool_decide (current s = X) then "bg-blue-600 text-white"
      else "bg-red-600 text-white"
  end.

(** ** The scenarios of the specification, run on the code *)

Example scenario_1 :
  let s := playAt initial 4 in
  index (board s) 4 = Val (Mark X) ∧ current s = O ∧
  evaluate (board s) = NoOutcome.
Proof. vm_compute. done. Qed.

Example scenario_2 :
  evaluate (board (play_all initial [0; 3; 1; 4; 2])) = Win X [0; 1; 2].
Proof. vm_compute. done. Qed.

Example scenario_3 :
  let s := play_all initial [0; 1; 2; 4; 3; 5; 7; 6; 8] in
  evaluate (board s) = Draw ∧
  board s = of_cells [Mark X; Mark O; Mark X; Mark X; Mark O; Mark O;
                      Mark O; Mark X; Mark X].
Proof. vm_compute. done. Qed.

Example scenario_4 :
  let s := playAt initial 0 in playAt s 0 = s.
Proof. vm_compute. done. Qed.

Example scenario_5 :
  let s := play_all initial [0; 3; 1; 4; 2] in
  playAt s 5 = s ∧ resetGame s = initial.
Proof. vm_compute. done. Qed.

(** ** Reading a line *)

Section Lines.
Context (b : Board).

Lemma strict_eq_true v w : strict_eq v w = true ↔ v = w.
Proof. unfold strict_eq. apply bool_decide_eq_true. Qed.

Lemma three_in_line_3 a1 a2 a3 p :
  three_in_line b [a1; a2; a3] p ↔
  index b a1 = Val (Mark p) ∧ index b a2 = Val (Mark p) ∧
  index b a3 = Val (Mark p).
Proof.
  unfold three_in_line. rewrite !Forall_cons, Forall_nil. tauto.
Qed.

Lemma three_in_line_inj l p q :
  l ≠ [] → three_in_line b l p → three_in_line b l q → p = q.
Proof.
  destruct l as [|a l]; [done|]. intros _ Hp Hq.
  apply Forall_cons_1 in Hp as [Hp _], Hq as [Hq _]. congruence.
Qed.

Lemma check_line_Some l w :
  length l = 3 → check_line b l = Some w →
  line w = l ∧ three_in_line b l (winner w).
Proof.
  intros Hl. destruct l as [|a1 [|a2 [|a3 [|]]]]; try done. simpl.
  destruct (index b a1) as [|[|p]] eqn:E1; try done.
  destruct (strict_eq _ (index b a2)) eqn:E2; [|done].
  destruct (strict_eq _ (index b a3)) eqn:E3; [|done].
  apply strict_eq_true in E2, E3. intros [= <-]. simpl.
  split; [done|]. by apply three_in_line_3.
Qed.

Lemma check_line_complete l p :
  length l = 3 → three_in_line b l p →
  check_line b l = Some {| winner := p; line := l |}.
Proof.
  intros Hl. destruct l as [|a1 [|a2 [|a3 [|]]]]; try done.
  rewrite three_in_line_3. intros (E1 & E2 & E3). simpl.
  rewrite E1, E2, E3. unfold strict_eq. by rewrite bool_decide_eq_true_2.
Qed.

Lemma check_line_None l p :
  length l = 3 → check_line b l = None → ¬ three_in_line b l p.
Proof.
  intros Hl Hn Hp. by rewrite (check_line_complete l p) in Hn.
Qed.

(** The loop returns at the first line, in list order, that passes. *)
Lemma getWinner_from_first lines k l p :
  Forall (λ l, length l = 3) lines →
  lines !! k = Some l → three_in_line b l p →
  (∀ j l' p', j < k → lines !! j = Some l' → ¬ three_in_line b l' p') →
  getWinner_from lines b = Some {| winner := p; line := l |}.
Proof.
  intros Hlen. revert k.
  induction Hlen as [|l0 lines Hl0 Hlen IH]; intros k Hk Hp Hfirst.
  - done.
  - destruct k as [|k]; simpl in *.
    + injection Hk as ->. by rewrite (check_line_complete l p).
    + destruct (check_line b l0) as [w|] eqn:E.
      * apply check_line_Some in E as [_ E]; [|done].
        destruct (Hfirst 0 l0 (winner w)); [lia|done|done].
      * apply (IH k); [done|done|].
        intros j l' p' Hj Hl'. apply (Hfirst (S j)); [lia|done].
Qed.

Lemma getWinner_from_Some lines w :
  Forall (λ l, length l = 3) lines →
  getWinner_from lines b = Some w →
  ∃ k, lines !! k = Some (line w) ∧
       three_in_line b (line w) (winner w) ∧
       ∀ j l' p', j < k → lines !! j = Some l' → ¬ three_in_line b l' p'.
Proof.
  induction 1 as [|l0 lines Hl0 Hlen IH]; [done|]. simpl.
  destruct (check_line b l0) as [w'|] eqn:E.
  - intros [= ->]. apply check_line_Some in E as [E1 E2]; [|done].
    exists 0. rewrite E1. split_and!; [done|done|]. intros; lia.
  - intros Hw. destruct (IH Hw) as (k & Hk & Hp & Hfirst).
    exists (S k). split_and!; [done|done|].
    intros [|j] l' p' Hj Hl'; simpl in Hl'.
    + injection Hl' as <-. by apply check_line_None.
    + apply (Hfirst j); [lia|done].
Qed.

Lemma getWinner_from_None lines l p :
  Forall (λ l, length l = 3) lines →
  getWinner_from lines b = None → l ∈ lines → ¬ three_in_line b l p.
Proof.
  induction 1 as [|l0 lines Hl0 Hlen IH]; [by intros _ ?%elem_of_nil|].
  simpl. destruct (check_line b l0) eqn:E; [done|].
  intros Hn [->|Hin]%elem_of_cons.
  - by apply check_line_None.
  - by apply IH.
Qed.
End Lines.

Lemma LINES_WinLines : LINES = WinLines.
Proof. reflexivity. Qed.

Lemma LINES_length : Forall (λ l, length l = 3) LINES.
Proof. unfold LINES. repeat constructor. Qed.

Lemma WinLines_nonempty l : l ∈ WinLines → l ≠ [].
Proof.
  intros Hl ->. pose proof LINES_length as H.
  rewrite Forall_forall in H. by apply H in Hl.
Qed.

Lemma getWinner_Some_first b w :
  getWinner b = Some w → ∃ k, first_line b k (line w) (winner w).
Proof.
  intros E.
  destruct (getWinner_from_Some b LINES w LINES_length E) as (k & ? & ? & ?).
  by exists k.
Qed.

Lemma getWinner_first b k l p :
  first_line b k l p → getWinner b = Some {| winner := p; line := l |}.
Proof.
  intros (Hk & Hp & Hfirst).
  by apply (getWinner_from_first b LINES k l p LINES_length).
Qed.

Lemma getWinner_None b : getWinner b = None ↔ ¬ has_line b.
Proof.
  split.
  - intros E (l & p & Hl & Hp).
    by destruct (getWinner_from_None b LINES l p LINES_length E Hl).
  - intros Hno. destruct (getWinner b) as [w|] eqn:E; [|done].
    destruct (getWinner_Some_first b w E) as (k & Hk & Hp & _).
    destruct Hno. exists (line w), (winner w). split; [|done].
    by eapply list_elem_of_lookup_2.
Qed.

(** Among the lines that hold three identical marks there is a first one. *)
Lemma has_line_first b :
  has_line b → ∃ k l p, first_line b k l p.
Proof.
  intros Hb. destruct (getWinner b) as [w|] eqn:E.
  - destruct (getWinner_Some_first b w E) as [k Hk].
    by exists k, (line w), (winner w).
  - by apply getWinner_None in E.
Qed.

(** The first line is unique. *)
Lemma first_line_unique b k l p k' l' p' :
  first_line b k l p → first_line b k' l' p' → l = l' ∧ p = p'.
Proof.
  intros H H'. apply getWinner_first in H, H'.
  rewrite H in H'. by injection H' as -> ->.
Qed.

(** ** The full-board test on a nine-cell board *)

Lemma is_board9_length b : is_board9 b = true → length b = 9.
Proof.
  unfold is_board9. intros [H _]%andb_true_iff.
  by apply bool_decide_eq_true in H.
Qed.

Lemma is_board9_cell b i :
  is_board9 b = true → i < 9 → ∃ c, b !! i = Some (Elem (Val c)).
Proof.
  intros Hb Hi. pose proof (is_board9_length b Hb) as Hlen.
  unfold is_board9 in Hb. apply andb_true_iff in Hb as [_ Hb].
  rewrite forallb_forall in Hb.
  destruct (lookup_lt_is_Some_2 b i) as [s Hs]; [lia|].
  assert (is_cell s = true) as Hc.
  { apply Hb, list_elem_of_In. by eapply list_elem_of_lookup_2. }
  destruct s as [|[|c]]; try done. by exists c.
Qed.

Lemma every_not_null_full b :
  is_board9 b = true → every not_null b = true ↔ full b.
Proof.
  intros Hb. pose proof (is_board9_length b Hb) as Hlen.
  unfold every, full. rewrite forallb_forall. split.
  - intros Hall i Hi. rewrite Hlen in Hi.
    destruct (is_board9_cell b i Hb Hi) as [c Hc].
    unfold index. rewrite Hc.
    assert (In (Elem (Val c)) b) as Hin.
    { apply list_elem_of_In. by eapply list_elem_of_lookup_2. }
    apply Hall in Hin. destruct c as [|p]; [done|by exists p].
  - intros Hfull s [i Hi]%list_elem_of_In%list_elem_of_lookup_1.
    pose proof (lookup_lt_Some _ _ _ Hi) as Hlt.
    destruct (Hfull i Hlt) as [p Hp]. unfold index in Hp. rewrite Hi in Hp.
    destruct s as [|v]; [done|]. by subst v.
Qed.

(** ** The derived values and the evaluator *)

Lemma evaluate_Win s p l :
  evaluate (board s) = Win p l ↔
  winnerInfo s = Some {| winner := p; line := l |}.
Proof.
  unfold evaluate, winnerInfo.
  destruct (getWinner (board s)) as [[p' l']|]; simpl.
  - split; intros [= -> ->]; done.
  - by destruct (every not_null (board s)).
Qed.

Lemma evaluate_Draw s : evaluate (board s) = Draw ↔ draw s = true.
Proof.
  unfold evaluate, draw, winnerInfo.
  destruct (getWinner (board s)) as [w|]; simpl.
  - by rewrite andb_false_r.
  - rewrite andb_true_r. by destruct (every not_null (board s)).
Qed.

Lemma gameOver_false s :
  gameOver s = false ↔ evaluate (board s) = NoOutcome.
Proof.
  unfold gameOver, evaluate, draw, winnerInfo.
  destruct (getWinner (board s)) as [w|]; simpl; [done|].
  rewrite andb_true_r. by destruct (every not_null (board s)).
Qed.

Lemma gameOver_true s :
  gameOver s = true ↔ evaluate (board s) ≠ NoOutcome.
Proof.
  rewrite <- gameOver_false. by destruct (gameOver s).
Qed.

(** ** Copying and writing an array *)

Lemma length_spread b : length (spread b) = length b.
Proof. unfold spread. by rewrite length_fmap. Qed.

Lemma index_spread b i : index (spread b) i = index b i.
Proof.
  unfold index, spread. rewrite list_lookup_fmap.
  by destruct (b !! i) as [[|v]|].
Qed.

Lemma length_array_set b i c :
  length (array_set b i c) = length b `max` (i + 1).
Proof.
  unfold array_set. case_decide.
  - rewrite length_insert. lia.
  - rewrite !length_app, length_replicate. simpl. lia.
Qed.

Lemma index_array_set_eq b i c : index (array_set b i c) i = Val c.
Proof.
  unfold index, array_set. case_decide.
  - by rewrite list_lookup_insert_eq.
  - rewrite lookup_app_r by lia.
    rewrite lookup_app_r by (rewrite length_replicate; lia).
    rewrite length_replicate. by rewrite Nat.sub_diag.
Qed.

Lemma index_array_set_ne b i j c :
  i ≠ j → index (array_set b i c) j = index b j.
Proof.
  intros Hne. unfold index, array_set. case_decide.
  - by rewrite list_lookup_insert_ne.
  - destruct (decide (j < length b)) as [Hj|Hj].
    + by rewrite lookup_app_l.
    + rewrite (lookup_ge_None_2 b j) by lia.
      rewrite lookup_app_r by lia.
      destruct (decide (j - length b < i - length b)) as [Hg|Hg].
      * rewrite lookup_app_l by (by rewrite length_replicate).
        by rewrite lookup_replicate_2.
      * rewrite lookup_app_r by (rewrite length_replicate; lia).
        rewrite length_replicate.
        destruct (j - length b - (i - length b)) as [|n] eqn:E; [lia|done].
Qed.

(** ** What an accepted click does *)

Lemma playAt_rejected s idx :
  gameOver s = true ∨ truthy (index (board s) idx) = true →
  playAt s idx = s.
Proof.
  intros H. unfold playAt.
  destruct H as [-> | ->]; [done|]. by rewrite orb_true_r.
Qed.

Lemma playAt_accepted s idx :
  gameOver s = false → truthy (index (board s) idx) = false →
  playAt s idx =
    {| board := array_set (spread (board s)) idx (Mark (current s));
       current := flip (current s) |}.
Proof. intros Hg Ht. unfold playAt. by rewrite Hg, Ht. Qed.

Lemma flip_ne p : flip p ≠ p.
Proof. by destruct p. Qed.

(** ** Counting marks *)

Lemma marks_cons p x b :
  marks p (x :: b) =
  (if decide (x = Elem (Val (Mark p))) then 1 else 0) + marks p b.
Proof.
  unfold marks. rewrite filter_cons. by case_decide.
Qed.

Lemma marks_spread p b : marks p (spread b) = marks p b.
Proof.
  induction b as [|x b IH]; [done|].
  change (spread (x :: b)) with
    ((match x with Hole => Elem Undefined | Elem v => Elem v end) :: spread b).
  rewrite !marks_cons, IH. by destruct x.
Qed.

Lemma marks_insert p b i x y :
  b !! i = Some x →
  marks p (<[i := y]> b) + (if decide (x = Elem (Val (Mark p))) then 1 else 0)
  = marks p b + (if decide (y = Elem (Val (Mark p))) then 1 else 0).
Proof.
  revert i. induction b as [|z b IH]; intros [|i] Hi; try done; simpl in *.
  - injection Hi as ->. rewrite !marks_cons. lia.
  - rewrite !marks_cons. specialize (IH i Hi). lia.
Qed.

(** * The claims *)

(** ** C1: the outcome of a nine-cell board *)

(** C1, as stated, fails: after the clicks 1, 4, 2, 5, 3, 7, 6, 8, 0 the
    board holds X on the top row and on the left column.  The left column
    is one of the eight lines and holds three identical marks, yet the
    evaluator answers with the top row, which it tests first. *)
Lemma C1_two_lines_counterexample :
  let b := of_cells [Mark X; Mark X; Mark X;
                     Mark X; Mark O; Mark O;
                     Mark X; Mark O; Mark O] in
  b = board (play_all initial [1; 4; 2; 5; 3; 7; 6; 8; 0]) ∧
  is_board9 b = true ∧
  [0; 3; 6] ∈ WinLines ∧ three_in_line b [0; 3; 6] X ∧
  evaluate b = Win X [0; 1; 2] ∧
  evaluate b ≠ Win X [0; 3; 6].
Proof.
  cbv zeta. split_and!.
  - vm_compute. reflexivity.
  - vm_compute. reflexivity.
  - apply (list_elem_of_lookup_2 _ 3). reflexivity.
  - apply three_in_line_3. vm_compute. auto.
  - vm_compute. reflexivity.
  - vm_compute. discriminate.
Qed.

(** C1, amended: on a nine-cell board with three identical marks along
    one of the eight win lines the evaluator returns Win with the first
    such line of the fixed order and the mark on it, hence with the given
    line when no other line holds three identical marks; on a full board
    with no such line it returns Draw; on every other board it returns
    no outcome. *)
Theorem C1_evaluate_outcome (b : Board) :
  is_board9 b = true →
  (∀ l p, l ∈ WinLines → three_in_line b l p →
     ∃ k l' p', first_line b k l' p' ∧ evaluate b = Win p' l') ∧
  (∀ l p, l ∈ WinLines → three_in_line b l p →
     (∀ l' p', l' ∈ WinLines → three_in_line b l' p' → l' = l) →
     evaluate b = Win p l) ∧
  (full b → ¬ has_line b → evaluate b = Draw) ∧
  (¬ full b → ¬ has_line b → evaluate b = NoOutcome).
Proof.
  intros Hb.
  assert (∀ k l p, first_line b k l p → evaluate b = Win p l) as Hfirst.
  { intros k l p H. unfold evaluate. by rewrite (getWinner_first b k l p H). }
  split_and!.
  - intros l p Hl Hp.
    destruct (has_line_first b) as (k & l' & p' & H); [by exists l, p|].
    exists k, l', p'. split; [done|]. by apply (Hfirst k).
  - intros l p Hl Hp Honly.
    destruct (has_line_first b) as (k & l' & p' & H); [by exists l, p|].
    pose proof H as (Hk & Hp' & _).
    assert (l' = l) as ->.
    { apply (Honly l' p'); [|done]. by eapply list_elem_of_lookup_2. }
    assert (p' = p) as ->.
    { eapply three_in_line_inj; [|done..]. by apply WinLines_nonempty. }
    by apply (Hfirst k).
  - intros Hfull Hno. apply getWinner_None in Hno.
    apply (every_not_null_full b Hb) in Hfull.
    unfold evaluate. by rewrite Hno, Hfull.
  - intros Hnfull Hno. apply getWinner_None in Hno.
    unfold evaluate. rewrite Hno.
    destruct (every not_null b) eqn:E; [|done].
    by apply (every_not_null_full b Hb) in E.
Qed.

(** C1 on three boards: a single line, a full board without a line, and
    the empty board. *)
Lemma C1_evaluate_outcome_witness :
  evaluate (of_cells [Mark X; Mark X; Mark X;
                      Mark O; Mark O; Null;
                      Null; Null; Null]) = Win X [0; 1; 2] ∧
  evaluate (of_cells [Mark X; Mark O; Mark X;
                      Mark X; Mark O; Mark O;
                      Mark O; Mark X; Mark X]) = Draw ∧
  evaluate (fill Null (Array 9)) = NoOutcome.
Proof.
  split_and!.
  - destruct (C1_evaluate_outcome
                (of_cells [Mark X; Mark X; Mark X;
                           Mark O; Mark O; Null;
                           Null; Null; Null]) eq_refl) as (_ & H & _ & _).
    apply H; clear H.
    + apply (list_elem_of_lookup_2 _ 0). reflexivity.
    + apply three_in_line_3. vm_compute. auto.
    + intros l' p' Hl'. unfold WinLines in Hl'. simpl in Hl'.
      repeat (apply elem_of_cons in Hl' as [->|Hl']; [
        first [ reflexivity
              | intros H%three_in_line_3; vm_compute in H;
                destruct H as (? & ? & ?); destruct p'; discriminate ] |]).
      by apply elem_of_nil in Hl'.
  - destruct (C1_evaluate_outcome
                (of_cells [Mark X; Mark O; Mark X;
                           Mark X; Mark O; Mark O;
                           Mark O; Mark X; Mark X]) eq_refl) as (_ & _ & H & _).
    apply H; clear H.
    + intros i Hi. simpl in Hi.
      do 9 (destruct i as [|i]; [eexists; reflexivity|]). lia.
    + apply getWinner_None. reflexivity.
  - destruct (C1_evaluate_outcome (fill Null (Array 9)) eq_refl)
      as (_ & _ & _ & H).
    apply H; clear H.
    + intros H. destruct (H 0) as [p Hp]; [simpl; lia|]. discriminate.
    + apply getWinner_None. reflexivity.
Defined.

(** ** C2: a rejected click changes nothing *)

(** C2: when the game is over (the evaluator yields Win, or Draw: the
    board is full with no winner) or the clicked cell already carries a
    mark, [playAt] returns the state it was given, board and current
    player alike; this holds for every index. *)
Theorem C2_rejected_click_is_noop (s : State) (idx : nat) :
  (∃ p l, evaluate (board s) = Win p l) ∨
  evaluate (board s) = Draw ∨
  (∃ p, index (board s) idx = Val (Mark p)) →
  playAt s idx = s.
Proof.
  intros [(p & l & Hwin) | [Hdraw | [p Hp]]]; apply playAt_rejected.
  - left. apply gameOver_true. by rewrite Hwin.
  - left. apply gameOver_true. by rewrite Hdraw.
  - right. by rewrite Hp.
Qed.

(** C2 after X has won on the top row, after a drawn game, and on the
    cell X has just taken. *)
Lemma C2_rejected_click_is_noop_witness :
  (let s := play_all initial [0; 3; 1; 4; 2] in playAt s 5 = s) ∧
  (let s := play_all initial [0; 1; 2; 4; 3; 5; 7; 6; 8] in playAt s 0 = s) ∧
  (let s := playAt initial 0 in playAt s 0 = s).
Proof.
  split_and!; cbv zeta; apply C2_rejected_click_is_noop.
  - left. exists X, [0; 1; 2]. vm_compute. reflexivity.
  - right. left. vm_compute. reflexivity.
  - right. right. exists X. vm_compute. reflexivity.
Defined.

(** ** C3: an accepted click writes one cell *)

Lemma spread_cells b : forallb is_cell b = true → spread b = b.
Proof.
  induction b as [|x b IH]; [done|]. simpl.
  intros [Hx Hb]%andb_true_iff.
  change (spread (x :: b)) with
    ((match x with Hole => Elem Undefined | Elem v => Elem v end) :: spread b).
  rewrite (IH Hb). by destruct x.
Qed.

Lemma playAt_index s idx :
  gameOver s = false → truthy (index (board s) idx) = false →
  index (board (playAt s idx)) idx = Val (Mark (current s)) ∧
  ∀ j, j ≠ idx → index (board (playAt s idx)) j = index (board s) j.
Proof.
  intros Hg Ht. rewrite (playAt_accepted s idx Hg Ht). simpl. split.
  - apply index_array_set_eq.
  - intros j Hj. rewrite index_array_set_ne by done. apply index_spread.
Qed.

(** C3: on a nine-cell board, with the game not over and the cell at
    [idx], 0 to 8, empty, [playAt] puts the current player's mark on cell
    [idx] and leaves every other cell as it was: the new board is the old
    one with that single cell replaced. *)
Theorem C3_accepted_click_marks_cell (s : State) (idx : nat) :
  is_board9 (board s) = true → idx < 9 →
  evaluate (board s) = NoOutcome → index (board s) idx = Val Null →
  index (board (playAt s idx)) idx = Val (Mark (current s)) ∧
  (∀ j, j ≠ idx → index (board (playAt s idx)) j = index (board s) j) ∧
  board (playAt s idx) = <[idx := Elem (Val (Mark (current s)))]> (board s).
Proof.
  intros Hb Hidx Hev Hnull.
  apply gameOver_false in Hev.
  assert (truthy (index (board s) idx) = false) as Ht by by rewrite Hnull.
  destruct (playAt_index s idx Hev Ht) as [H1 H2].
  split_and!; [done|done|].
  rewrite (playAt_accepted s idx Hev Ht). simpl.
  pose proof (is_board9_length _ Hb) as Hlen.
  unfold is_board9 in Hb. apply andb_true_iff in Hb as [_ Hb].
  rewrite (spread_cells _ Hb). unfold array_set.
  rewrite decide_True by lia. done.
Qed.

(** C3 on the opening move in the centre. *)
Lemma C3_accepted_click_marks_cell_witness :
  index (board (playAt initial 4)) 4 = Val (Mark X) ∧
  (∀ j, j ≠ 4 → index (board (playAt initial 4)) j = index (board initial) j) ∧
  board (playAt initial 4) = <[4 := Elem (Val (Mark X))]> (board initial).
Proof.
  apply (C3_accepted_click_marks_cell initial 4).
  - reflexivity.
  - lia.
  - reflexivity.
  - reflexivity.
Defined.

(** ** C4: turns alternate *)

(** C4: after an accepted move (game not over, clicked cell empty) the
    current player is the other one: X becomes O and O becomes X. *)
Theorem C4_turn_alternates (s : State) (idx : nat) :
  evaluate (board s) = NoOutcome → index (board s) idx = Val Null →
  current (playAt s idx) ≠ current s ∧
  (current s = X → current (playAt s idx) = O) ∧
  (current s = O → current (playAt s idx) = X).
Proof.
  intros Hev Hnull. apply gameOver_false in Hev.
  rewrite (playAt_accepted s idx Hev) by by rewrite Hnull.
  simpl. split_and!.
  - apply flip_ne.
  - by intros ->.
  - by intros ->.
Qed.

(** C4 on the first two moves of a game. *)
Lemma C4_turn_alternates_witness :
  current (playAt initial 4) = O ∧
  current (playAt (playAt initial 4) 0) = X.
Proof.
  split.
  - destruct (C4_turn_alternates initial 4) as (_ & H & _);
      [reflexivity | reflexivity |]. by apply H.
  - destruct (C4_turn_alternates (playAt initial 4) 0) as (_ & _ & H);
      [reflexivity | reflexivity |]. by apply H.
Defined.

(** ** C5: restart *)

(** C5: whatever the state, [resetGame] produces the state of the first
    render: nine empty cells, X to move. *)
Theorem C5_reset_is_initial (s : State) :
  resetGame s = initial ∧
  board (resetGame s) = of_cells (replicate 9 Null) ∧
  current (resetGame s) = X.
Proof. split_and!; reflexivity. Qed.

(** ** C6: the order of the win lines *)

(** C6: [LINES] lists the rows top to bottom, then the columns left to
    right, then the diagonal 0-4-8, then the diagonal 2-4-6, and
    [getWinner] returns exactly the first line of that order that holds
    three identical marks, with the mark on it: also when several lines
    hold three identical marks. *)
Theorem C6_first_line_in_order :
  LINES = WinLines ∧
  ∀ (b : Board) (l : list nat) (p : Player),
    (∃ k, first_line b k l p) ↔
    getWinner b = Some {| winner := p; line := l |}.
Proof.
  split; [reflexivity|]. intros b l p. split.
  - intros [k Hk]. by apply (getWinner_first b k).
  - intros E. by apply getWinner_Some_first in E.
Qed.

(** Two rows at once, each with another mark: the top row is reported. *)
Example two_rows_top_first :
  getWinner (of_cells [Mark X; Mark X; Mark X;
                       Mark O; Mark O; Mark O;
                       Null; Null; Null])
  = Some {| winner := X; line := [0; 1; 2] |}.
Proof. vm_compute. reflexivity. Qed.

(** A column and a diagonal through cell 0: the column comes first. *)
Example column_before_diagonal :
  getWinner (of_cells [Mark O; Mark X; Mark X;
                       Mark O; Mark O; Mark X;
                       Mark O; Mark X; Mark O])
  = Some {| winner := O; line := [0; 3; 6] |}.
Proof. vm_compute. reflexivity. Qed.

(** ** C7: the status line *)

(** C7: the status text is a function of the state alone: the winner's
    name when the outcome is a win, "Draw game" when it is a draw, and the
    current player's turn otherwise. *)
Theorem C7_status_of_outcome (s : State) :
  status s =
  match evaluate (board s) with
  | Win X _ => "Player X wins"
  | Win O _ => "Player O wins"
  | Draw => "Draw game"
  | NoOutcome =>
      match current s with
      | X => "Player X's turn"
      | O => "Player O's turn"
      end
  end.
Proof.
  unfold status, draw, evaluate, winnerInfo.
  destruct (getWinner (board s)) as [[[|] l]|]; simpl; [done|done|].
  rewrite andb_true_r.
  destruct (every not_null (board s)); [done|]. by destruct (current s).
Qed.

(** ** C8: the restart key *)

(** C8: on a key-down event whose key is "r" or "R" the handler makes the
    transition of the restart button: the next state is [resetGame]'s,
    the state of the first render. *)
Theorem C8_restart_key (s : State) (e : KeyboardEvent) :
  key e = "r" ∨ key e = "R" →
  onKeyDown s e = resetGame s ∧ onKeyDown s e = initial.
Proof.
  intros [H|H]; unfold onKeyDown; rewrite H; split; reflexivity.
Qed.

(** C8 in the middle of a game, for both spellings of the key. *)
Lemma C8_restart_key_witness :
  let s := play_all initial [4; 0; 8] in
  onKeyDown s {| key := "r" |} = initial ∧
  onKeyDown s {| key := "R" |} = initial.
Proof.
  cbv zeta. split.
  - apply (C8_restart_key _ {| key := "r" |}). left. reflexivity.
  - apply (C8_restart_key _ {| key := "R" |}). right. reflexivity.
Defined.

(** Any other ASCII key leaves the state alone. *)
Example other_key_ignored :
  let s := play_all initial [4; 0; 8] in
  onKeyDown s {| key := "x" |} = s ∧ onKeyDown s {| key := "Enter" |} = s.
Proof. vm_compute. auto. Qed.

(** ** C9: the shape of reachable states *)

Lemma playAt_marks s idx p :
  gameOver s = false → truthy (index (board s) idx) = false →
  idx < length (board s) →
  length (board (playAt s idx)) = length (board s) ∧
  marks p (board (playAt s idx)) =
    marks p (board s) + (if decide (p = current s) then 1 else 0).
Proof.
  intros Hg Ht Hidx. rewrite (playAt_accepted s idx Hg Ht). simpl.
  unfold array_set. rewrite length_spread, decide_True by done.
  rewrite length_insert, length_spread. split; [done|].
  destruct (lookup_lt_is_Some_2 (spread (board s)) idx) as [x Hx];
    [by rewrite length_spread|].
  pose proof (marks_insert p _ idx x (Elem (Val (Mark (current s)))) Hx) as Hm.
  rewrite marks_spread in Hm.
  assert (x ≠ Elem (Val (Mark p))) as Hxp.
  { intros ->. rewrite <- index_spread in Ht. unfold index in Ht.
    by rewrite Hx in Ht. }
  rewrite decide_False in Hm by done.
  destruct (decide (p = current s)) as [->|Hp].
  - rewrite decide_True in Hm by done. lia.
  - rewrite decide_False in Hm by congruence. lia.
Qed.

Lemma reachable_counts s :
  reachable s →
  length (board s) = 9 ∧
  marks X (board s) =
    marks O (board s) + (match current s with X => 0 | O => 1 end).
Proof.
  induction 1 as [|s idx Hs [IHlen IHm] Hidx|s Hs _].
  - split; reflexivity.
  - destruct (gameOver s || truthy (index (board s) idx)) eqn:E.
    + unfold playAt. by rewrite E.
    + apply orb_false_iff in E as [Hg Ht].
      destruct (playAt_marks s idx X Hg Ht) as [Hlen HX]; [lia|].
      destruct (playAt_marks s idx O Hg Ht) as [_ HO]; [lia|].
      split; [lia|]. rewrite HX, HO, (playAt_accepted s idx Hg Ht). simpl.
      destruct (current s); simpl in *;
        repeat (case_decide; try done); lia.
  - split; reflexivity.
Qed.

(** C9: every state reached from the first render by clicks on the nine
    cells and restarts has a board of nine cells, with as many X as O or
    one X more, and X is to move exactly when the counts are equal. *)
Theorem C9_reachable_invariant (s : State) :
  reachable s →
  length (board s) = 9 ∧
  (marks X (board s) = marks O (board s) ∨
   marks X (board s) = marks O (board s) + 1) ∧
  (current s = X ↔ marks X (board s) = marks O (board s)).
Proof.
  intros [Hlen Hm]%reachable_counts. split; [done|].
  destruct (current s); simpl in Hm.
  - split; [left; lia|]. split; [lia|done].
  - split; [right; lia|]. split; [done|lia].
Qed.

(** C9 after three clicks, the second of them rejected. *)
Lemma C9_reachable_invariant_witness :
  let s := playAt (playAt (playAt initial 4) 4) 0 in
  length (board s) = 9 ∧
  (marks X (board s) = marks O (board s) ∨
   marks X (board s) = marks O (board s) + 1) ∧
  (current s = X ↔ marks X (board s) = marks O (board s)).
Proof.
  cbv zeta. apply C9_reachable_invariant.
  apply reach_playAt; [|lia].
  apply reach_playAt; [|lia].
  apply reach_playAt; [|lia].
  apply reach_initial.
Defined.

(** ** C10: a click outside the board *)

(** C10: [playAt] checks no range.  On a nine-cell board with the game not
    over, any index from 9 upwards reads as [undefined], so the guard lets
    the move through: the mark of the current player is written at that
    index, the state changes and the board is no longer nine cells long. *)
Theorem C10_out_of_range_click (s : State) (idx : nat) :
  is_board9 (board s) = true → evaluate (board s) = NoOutcome → 9 ≤ idx →
  index (board s) idx = Undefined ∧
  playAt s idx ≠ s ∧
  index (board (playAt s idx)) idx = Val (Mark (current s)) ∧
  current (playAt s idx) = flip (current s) ∧
  length (board (playAt s idx)) = idx + 1 ∧
  is_board9 (board (playAt s idx)) = false.
Proof.
  intros Hb Hev Hidx. apply gameOver_false in Hev.
  pose proof (is_board9_length _ Hb) as Hlen.
  assert (index (board s) idx = Undefined) as Hu.
  { unfold index. by rewrite lookup_ge_None_2 by lia. }
  assert (truthy (index (board s) idx) = false) as Ht by by rewrite Hu.
  destruct (playAt_index s idx Hev Ht) as [Hw _].
  assert (length (board (playAt s idx)) = idx + 1) as Hlen'.
  { rewrite (playAt_accepted s idx Hev Ht). simpl.
    rewrite length_array_set, length_spread. lia. }
  split_and!; try done.
  - intros E. rewrite E in Hw. congruence.
  - by rewrite (playAt_accepted s idx Hev Ht).
  - unfold is_board9. rewrite bool_decide_eq_false_2 by lia. done.
Qed.

(** C10 at index 9 on the first render: a tenth cell appears. *)
Lemma C10_out_of_range_click_witness :
  playAt initial 9 ≠ initial ∧
  index (board (playAt initial 9)) 9 = Val (Mark X) ∧
  length (board (playAt initial 9)) = 10.
Proof.
  destruct (C10_out_of_range_click initial 9) as (_ & H1 & H2 & _ & H3 & _).
  - reflexivity.
  - reflexivity.
  - lia.
  - split_and!; [exact H1 | exact H2 | exact H3].
Defined.

(** Further out the gap is left as holes, which the full-board test skips. *)
Example out_of_range_holes :
  board (playAt initial 11) =
    of_cells (replicate 9 Null) ++ [Hole; Hole; Elem (Val (Mark X))].
Proof. vm_compute. reflexivity. Qed.

(** * Further properties of the handlers *)

(** ** Sequences of clicks *)

Lemma playAt_changes s idx :
  gameOver s = false → truthy (index (board s) idx) = false →
  playAt s idx ≠ s.
Proof.
  intros Hg Ht E. apply (f_equal current) in E.
  rewrite (playAt_accepted s idx Hg Ht) in E. simpl in E.
  by apply flip_ne in E.
Qed.

Lemma playAt_keeps_mark s idx i p :
  index (board s) i = Val (Mark p) →
  index (board (playAt s idx)) i = Val (Mark p).
Proof.
  intros Hi.
  destruct (gameOver s || truthy (index (board s) idx)) eqn:E.
  - unfold playAt. by rewrite E.
  - apply orb_false_iff in E as [Hg Ht].
    destruct (playAt_index s idx Hg Ht) as [_ Hframe].
    rewrite Hframe; [done|]. intros ->. by rewrite Hi in Ht.
Qed.



(** Once the game is over (won or drawn) no sequence of clicks changes the
    state: only [resetGame] leaves a finished game. *)
Theorem game_over_absorbs_clicks (s : State) (idxs : list nat) :
  gameOver s = true → play_all s idxs = s.
Proof.
  intros Hg. induction idxs as [|idx idxs IH]; [done|].
  simpl. rewrite (playAt_rejected s idx) by by left. exact IH.
Qed.

Lemma game_over_absorbs_clicks_witness :
  let s := play_all initial [0; 3; 1; 4; 2] in
  play_all s [5; 6; 7; 8; 20] = s.
Proof.
  cbv zeta. apply game_over_absorbs_clicks. reflexivity.
Defined.

(** ** Reachable states *)

Lemma forallb_is_cell_insert b i c :
  forallb is_cell b = true →
  forallb is_cell (<[i := Elem (Val c)]> b) = true.
Proof.
  revert i. induction b as [|x b IH]; intros i; [done|]. simpl.
  intros [Hx Hb]%andb_true_iff. destruct i as [|i]; simpl.
  - done.
  - rewrite Hx. simpl. by apply IH.
Qed.

Lemma playAt_board9 s idx :
  is_board9 (board s) = true → idx < 9 →
  is_board9 (board (playAt s idx)) = true.
Proof.
  intros Hb Hidx.
  destruct (gameOver s || truthy (index (board s) idx)) eqn:E.
  - unfold playAt. by rewrite E.
  - apply orb_false_iff in E as [Hg Ht].
    rewrite (playAt_accepted s idx Hg Ht). simpl.
    pose proof (is_board9_length _ Hb) as Hlen.
    unfold is_board9 in *. apply andb_true_iff in Hb as [_ Hb].
    rewrite (spread_cells _ Hb). unfold array_set.
    rewrite decide_True by lia. rewrite length_insert.
    rewrite bool_decide_eq_true_2 by done. simpl.
    by apply forallb_is_cell_insert.
Qed.

(** Every reachable board is a board of the declared type: nine
    elements, each [null], ["X"] or ["O"], with no hole and no
    [undefined] among them. *)
Theorem reachable_board9 (s : State) :
  reachable s → is_board9 (board s) = true.
Proof.
  induction 1 as [|s idx Hs IH Hidx|s Hs _].
  - reflexivity.
  - by apply playAt_board9.
  - reflexivity.
Qed.

Lemma reachable_board9_witness :
  is_board9 (board (playAt (playAt initial 4) 0)) = true.
Proof.
  apply reachable_board9.
  apply reach_playAt; [|lia]. apply reach_playAt; [|lia]. apply reach_initial.
Defined.

Lemma reachable_play_all s idxs :
  reachable s → Forall (λ i, i < 9) idxs → reachable (play_all s idxs).
Proof.
  intros Hs Hall. revert s Hs.
  induction Hall as [|idx idxs Hidx Hall IH]; intros s Hs; [done|].
  simpl. apply IH. by apply reach_playAt.
Qed.

(** Restarts add nothing to what clicks can reach: the reachable states
    are exactly the results of click sequences, on the nine cells, from
    the first render. *)
Theorem reachable_iff_clicks (s : State) :
  reachable s ↔
  ∃ idxs, Forall (λ i, i < 9) idxs ∧ s = play_all initial idxs.
Proof.
  split.
  - induction 1 as [|s idx Hs (idxs & Hall & ->) Hidx|s Hs _].
    + by exists [].
    + exists (idxs ++ [idx]). split.
      * apply Forall_app. split; [done|]. by apply Forall_singleton.
      * unfold play_all. by rewrite foldl_app.
    + by exists [].
  - intros (idxs & Hall & ->).
    apply reachable_play_all; [apply reach_initial | done].
Qed.

(** ** The game always ends *)

Lemma every_not_null_false b :
  every not_null b = false → ∃ i, b !! i = Some (Elem (Val Null)).
Proof.
  induction b as [|x b IH]; [done|]. simpl.
  destruct x as [|[|[|p]]]; simpl; try (intros [i Hi]%IH; by exists (S i)).
  intros _. by exists 0.
Qed.

(** While the game is not over on a nine-cell board, some cell is empty,
    and a click on it is accepted: the state changes. *)
Theorem open_game_has_move (s : State) :
  is_board9 (board s) = true → gameOver s = false →
  ∃ idx, idx < 9 ∧ index (board s) idx = Val Null ∧ playAt s idx ≠ s.
Proof.
  intros Hb Hg. pose proof (is_board9_length _ Hb) as Hlen.
  assert (every not_null (board s) = false) as He.
  { unfold gameOver, draw in Hg.
    destruct (bool_decide (is_Some (winnerInfo s))); [done|].
    simpl in Hg. by rewrite andb_true_r in Hg. }
  destruct (every_not_null_false _ He) as [i Hi].
  assert (index (board s) i = Val Null) as Hnull.
  { unfold index. by rewrite Hi. }
  exists i. split_and!.
  - apply lookup_lt_Some in Hi. lia.
  - done.
  - apply playAt_changes; [done|]. by rewrite Hnull.
Qed.

Lemma open_game_has_move_witness :
  ∃ idx, idx < 9 ∧ index (board (playAt initial 4)) idx = Val Null ∧
         playAt (playAt initial 4) idx ≠ playAt initial 4.
Proof.
  apply (open_game_has_move (playAt initial 4)); reflexivity.
Defined.

Lemma playAt_marks_or_over s idx :
  gameOver (playAt s idx) = true ∨
  truthy (index (board (playAt s idx)) idx) = true.
Proof.
  destruct (gameOver s) eqn:Hg.
  - left. by rewrite (playAt_rejected s idx) by by left.
  - destruct (truthy (index (board s) idx)) eqn:Ht.
    + right. by rewrite (playAt_rejected s idx) by by right.
    + right. destruct (playAt_index s idx Hg Ht) as [-> _]. done.
Qed.

Lemma truthy_mark v : truthy v = true ↔ ∃ p, v = Val (Mark p).
Proof.
  destruct v as [|[|p]]; simpl; split; try done.
  - intros [? ?]; done.
  - intros [? ?]; done.
  - intros _. by exists p.
Qed.

Lemma play_all_covers idxs s :
  gameOver (play_all s idxs) = true ∨
  ∀ i, i ∈ idxs ∨ truthy (index (board s) i) = true →
       truthy (index (board (play_all s idxs)) i) = true.
Proof.
  revert s. induction idxs as [|idx idxs IH]; intros s.
  - right. intros i [Hi|Hi]; [by apply elem_of_nil in Hi | done].
  - simpl. destruct (IH (playAt s idx)) as [Hover|Hcov]; [by left|].
    destruct (playAt_marks_or_over s idx) as [Hg|Ht].
    + left. change (gameOver (play_all (playAt s idx) idxs) = true).
      by rewrite game_over_absorbs_clicks.
    + right. intros i [[->|Hi]%elem_of_cons|Hi]; apply Hcov.
      * by right.
      * by left.
      * right. apply truthy_mark in Hi as [p Hp]. apply truthy_mark.
        exists p. by apply playAt_keeps_mark.
Qed.

(** From any nine-cell board, a sequence of clicks that visits each of
    the nine cells at least once, in any order and with any repetitions,
    ends the game: the last state is won or drawn. *)
Theorem clicking_every_cell_ends_game (s : State) (idxs : list nat) :
  is_board9 (board s) = true →
  Forall (λ i, i < 9) idxs →
  (∀ i, i < 9 → i ∈ idxs) →
  gameOver (play_all s idxs) = true.
Proof.
  intros Hb Hall Hcover.
  assert (is_board9 (board (play_all s idxs)) = true) as Hb'.
  { clear Hcover. revert s Hb.
    induction Hall as [|idx idxs Hidx Hall IH]; intros s Hb; [done|].
    simpl. apply IH. by apply playAt_board9. }
  destruct (play_all_covers idxs s) as [Hover|Hcov]; [done|].
  set (s' := play_all s idxs) in *.
  assert (every not_null (board s') = true) as He.
  { apply (every_not_null_full _ Hb'). intros i Hi.
    rewrite (is_board9_length _ Hb') in Hi.
    apply truthy_mark, Hcov. left. by apply Hcover. }
  unfold gameOver, draw. rewrite He.
  by destruct (bool_decide (is_Some (winnerInfo s'))).
Qed.

Lemma clicking_every_cell_ends_game_witness :
  gameOver (play_all initial [8; 7; 6; 5; 4; 3; 2; 1; 0; 4]) = true.
Proof.
  apply clicking_every_cell_ends_game.
  - reflexivity.
  - repeat constructor.
  - intros i Hi.
    do 9 (destruct i as [|i]; [set_solver|]). lia.
Defined.

(** ** Who wins, and when *)

Lemma flip_flip p : flip (flip p) = p.
Proof. by destruct p. Qed.

Lemma has_line_gameOver s : has_line (board s) → gameOver s = true.
Proof.
  intros Hl. unfold gameOver, winnerInfo.
  destruct (getWinner (board s)) eqn:E.
  - done.
  - by apply getWinner_None in E.
Qed.

(** A line completed by an accepted click passes through the clicked cell
    and carries the mark of the player who clicked. *)
Lemma playAt_new_line s idx l p :
  gameOver s = false → truthy (index (board s) idx) = false →
  l ∈ WinLines → three_in_line (board (playAt s idx)) l p →
  p = current s.
Proof.
  intros Hg Ht Hl Hp.
  destruct (playAt_index s idx Hg Ht) as [Hw Hframe].
  destruct (decide (idx ∈ l)) as [Hin|Hout].
  - unfold three_in_line in Hp. rewrite Forall_forall in Hp.
    specialize (Hp idx Hin). rewrite Hw in Hp. congruence.
  - assert (has_line (board s)) as Hline.
    { exists l, p. split; [done|].
      unfold three_in_line in *. rewrite Forall_forall in *.
      intros i Hi. rewrite <- Hframe; [by apply Hp|]. by intros ->. }
    apply has_line_gameOver in Hline. congruence.
Qed.

Lemma empty_board_no_line : ¬ has_line (fill Null (Array 9)).
Proof. apply getWinner_None. reflexivity. Qed.

Lemma winner_line_facts s w :
  winnerInfo s = Some w →
  line w ∈ WinLines ∧ three_in_line (board s) (line w) (winner w).
Proof.
  intros (k & Hk & Hp & _)%getWinner_Some_first. split; [|done].
  by eapply list_elem_of_lookup_2.
Qed.

Lemma reachable_line_mark s l p :
  reachable s → l ∈ WinLines → three_in_line (board s) l p →
  p = flip (current s).
Proof.
  intros Hs. revert l p.
  induction Hs as [|s idx Hs IH Hidx|s Hs _]; intros l p Hl Hp.
  - destruct empty_board_no_line. by exists l, p.
  - destruct (gameOver s || truthy (index (board s) idx)) eqn:E.
    + apply orb_true_iff in E.
      rewrite (playAt_rejected s idx E) in *. by apply (IH l p).
    + apply orb_false_iff in E as [Hg Ht].
      rewrite (playAt_new_line s idx l p Hg Ht Hl Hp).
      rewrite (playAt_accepted s idx Hg Ht). simpl. by rewrite flip_flip.
  - destruct empty_board_no_line. by exists l, p.
Qed.

(** In a reachable state every completed line carries the mark of the
    player who moved last, the one who is not [current]: the reported
    winner is never the player to move, and lines of both players never
    stand on the board together. *)
Theorem winner_moved_last (s : State) :
  reachable s →
  (∀ w, winnerInfo s = Some w → winner w = flip (current s)) ∧
  (∀ l l' p p', l ∈ WinLines → l' ∈ WinLines →
     three_in_line (board s) l p → three_in_line (board s) l' p' → p = p').
Proof.
  intros Hs. split.
  - intros w [Hin Hp]%winner_line_facts.
    by apply (reachable_line_mark s (line w)).
  - intros l l' p p' Hl Hl' Hp Hp'.
    rewrite (reachable_line_mark s l p Hs Hl Hp).
    by rewrite (reachable_line_mark s l' p' Hs Hl' Hp').
Qed.

Lemma winner_moved_last_witness :
  let s := play_all initial [0; 3; 1; 4; 2] in
  winnerInfo s = Some {| winner := X; line := [0; 1; 2] |} ∧
  X = flip (current s).
Proof.
  cbv zeta. split; [reflexivity|].
  destruct (winner_moved_last (play_all initial [0; 3; 1; 4; 2])) as [H _].
  - apply reachable_play_all; [apply reach_initial | repeat constructor].
  - apply (H {| winner := X; line := [0; 1; 2] |}). reflexivity.
Defined.

Lemma marks_total b :
  forallb is_cell b = true → every not_null b = true →
  marks X b + marks O b = length b.
Proof.
  induction b as [|x b IH]; [done|]. simpl.
  intros [Hx Hb]%andb_true_iff [Hn He]%andb_true_iff.
  rewrite !marks_cons. specialize (IH Hb He).
  destruct x as [|[|[|[|]]]]; try done;
    repeat (case_decide; try done); lia.
Qed.

(** A reachable game is drawn only on a board with five X and four O,
    after X's fifth move: O is the player shown as current. *)
Theorem draw_is_five_to_four (s : State) :
  reachable s → draw s = true →
  marks X (board s) = 5 ∧ marks O (board s) = 4 ∧ current s = O.
Proof.
  intros Hs Hd.
  pose proof (reachable_board9 s Hs) as Hb.
  destruct (reachable_counts s Hs) as [Hlen Hm].
  unfold draw in Hd. apply andb_true_iff in Hd as [He _].
  unfold is_board9 in Hb. apply andb_true_iff in Hb as [_ Hb].
  pose proof (marks_total _ Hb He) as Ht. rewrite Hlen in Ht.
  destruct (current s); [lia|]. split_and!; [lia|lia|done].
Qed.

Lemma draw_is_five_to_four_witness :
  let s := play_all initial [0; 1; 2; 4; 3; 5; 7; 6; 8] in
  marks X (board s) = 5 ∧ marks O (board s) = 4 ∧ current s = O.
Proof.
  cbv zeta. apply draw_is_five_to_four.
  - apply reachable_play_all; [apply reach_initial | repeat constructor].
  - reflexivity.
Defined.

Lemma marks_on_cells p b l :
  NoDup l → Forall (λ i, index b i = Val (Mark p)) l →
  length l ≤ marks p b.
Proof.
  intros Hnd. revert b. induction Hnd as [|i l Hi Hnd IH]; intros b Hall.
  - simpl. lia.
  - apply Forall_cons_1 in Hall as [Hp Hall].
    assert (b !! i = Some (Elem (Val (Mark p)))) as Hbi.
    { unfold index in Hp. destruct (b !! i) as [[|v]|]; congruence. }
    pose proof (marks_insert p b i _ (Elem (Val Null)) Hbi) as Hm.
    rewrite decide_True, decide_False in Hm by done.
    assert (length l ≤ marks p (<[i := Elem (Val Null)]> b)) as Hle.
    { apply IH. rewrite Forall_forall in *. intros j Hj.
      unfold index. rewrite list_lookup_insert_ne by (by intros ->).
      by apply Hall. }
    simpl. lia.
Qed.

Lemma WinLines_NoDup l : l ∈ WinLines → NoDup l.
Proof.
  intros [k Hk]%list_elem_of_lookup_1.
  do 8 (destruct k as [|k];
        [injection Hk as <-; apply (bool_decide_unpack _); vm_compute; exact I|]).
  done.
Qed.

(** In a reachable state with a winner, the winner has at least three
    marks and the board at least five; X wins with one mark more than O,
    O wins with as many marks as X. *)
Theorem win_needs_five_marks (s : State) (w : WinnerInfo) :
  reachable s → winnerInfo s = Some w →
  3 ≤ marks (winner w) (board s) ∧
  5 ≤ marks X (board s) + marks O (board s) ∧
  (winner w = X → marks X (board s) = marks O (board s) + 1) ∧
  (winner w = O → marks X (board s) = marks O (board s)).
Proof.
  intros Hs Hw.
  destruct (winner_line_facts s w) as [Hin Hp]; [done|].
  assert (winner w = flip (current s)) as Hwho
    by by apply (reachable_line_mark s (line w)).
  destruct (reachable_counts s Hs) as [_ Hm].
  pose proof (marks_on_cells (winner w) (board s) (line w)
                (WinLines_NoDup _ Hin) Hp) as Hthree.
  assert (length (line w) = 3) as Hl3.
  { pose proof LINES_length as H. rewrite Forall_forall in H. by apply H. }
  rewrite Hl3 in Hthree.
  destruct (winner w), (current s); simpl in *; try done;
    split_and!; try done; lia.
Qed.

Lemma win_needs_five_marks_witness :
  let s := play_all initial [0; 3; 1; 4; 2] in
  let w := {| winner := X; line := [0; 1; 2] |} in
  3 ≤ marks (winner w) (board s) ∧
  5 ≤ marks X (board s) + marks O (board s) ∧
  (winner w = X → marks X (board s) = marks O (board s) + 1) ∧
  (winner w = O → marks X (board s) = marks O (board s)).
Proof.
  cbv zeta. apply win_needs_five_marks.
  - apply reachable_play_all; [apply reach_initial | repeat constructor].
  - reflexivity.
Defined.

(** ** The rendered board *)

Lemma WinLines_bound l i : l ∈ WinLines → i ∈ l → i < 9.
Proof.
  intros [k Hk]%list_elem_of_lookup_1 Hi.
  do 8 (destruct k as [|k];
        [injection Hk as <-;
         repeat (apply elem_of_cons in Hi as [->|Hi]; [simpl; lia|]);
         by apply elem_of_nil in Hi|]).
  done.
Qed.

Lemma highlighted_of_winner s i :
  isWinning s i = true →
  ∃ w, winnerInfo s = Some w ∧ i ∈ line w ∧
       index (board s) i = Val (Mark (winner w)).
Proof.
  unfold isWinning, winningSet.
  intros Hi%bool_decide_eq_true%elem_of_list_to_set.
  destruct (winnerInfo s) as [w|] eqn:Hw; [|by apply elem_of_nil in Hi].
  exists w. split_and!; [done|done|].
  destruct (winner_line_facts s w Hw) as [_ Hp].
  unfold three_in_line in Hp. rewrite Forall_forall in Hp. by apply Hp.
Qed.

(** The highlight: without a winner no cell is highlighted; with a winner
    exactly three cells are, all among the nine, and each of them carries
    the winner's mark. *)
Theorem highlighted_cells (s : State) :
  match winnerInfo s with
  | None => ∀ i, isWinning s i = false
  | Some w =>
      size (winningSet s) = 3 ∧
      ∀ i, isWinning s i = true →
           i < 9 ∧ index (board s) i = Val (Mark (winner w))
  end.
Proof.
  destruct (winnerInfo s) as [w|] eqn:Hw.
  - destruct (winner_line_facts s w Hw) as [Hin _]. split.
    + unfold winningSet. rewrite Hw.
      rewrite size_list_to_set by by apply WinLines_NoDup.
      pose proof LINES_length as H. rewrite Forall_forall in H. by apply H.
    + intros i (w' & Hw' & Hi & Hc)%highlighted_of_winner.
      rewrite Hw in Hw'. injection Hw' as <-. split; [|done].
      by apply (WinLines_bound (line w)).
  - intros i. destruct (isWinning s i) eqn:Hi; [|done].
    apply highlighted_of_winner in Hi as (w & Hw' & _). congruence.
Qed.

(** On a nine-cell board a button is disabled exactly when a click on its
    cell would be ignored by [playAt]. *)
Theorem disabled_iff_click_ignored (s : State) (idx : nat) :
  is_board9 (board s) = true → idx < 9 →
  disabled s (index (board s) idx) = true ↔ playAt s idx = s.
Proof.
  intros Hb Hidx. destruct (is_board9_cell _ idx Hb Hidx) as [c Hc].
  assert (index (board s) idx = Val c) as Hi.
  { unfold index. by rewrite Hc. }
  unfold disabled. rewrite Hi.
  assert (not_null (Val c) = truthy (Val c)) as -> by by destruct c.
  rewrite <- Hi.
  destruct (gameOver s) eqn:Hg; simpl.
  - split; [|done]. intros _. apply playAt_rejected. by left.
  - destruct (truthy (index (board s) idx)) eqn:Ht.
    + split; [|done]. intros _. apply playAt_rejected. by right.
    + split; [done|]. intros E. by apply playAt_changes in E.
Qed.

Lemma disabled_iff_click_ignored_witness :
  let s := playAt initial 4 in
  (disabled s (index (board s) 4) = true ↔ playAt s 4 = s) ∧
  (disabled s (index (board s) 0) = true ↔ playAt s 0 = s).
Proof.
  cbv zeta. split; apply disabled_iff_click_ignored; reflexivity || lia.
Defined.

(** The badge and the status text agree: the badge is blue exactly when
    the text names player X (as winner or as next to move), red exactly
    when it names player O, and slate exactly on "Draw game". *)
Theorem badge_matches_status (s : State) :
  (badgeClass s = "bg-blue-600 text-white" ↔
     status s = "Player X wins" ∨ status s = "Player X's turn") ∧
  (badgeClass s = "bg-red-600 text-white" ↔
     status s = "Player O wins" ∨ status s = "Player O's turn") ∧
  (badgeClass s = "bg-slate-600 text-white" ↔ status s = "Draw game").
Proof.
  unfold badgeClass, status.
  destruct (winnerInfo s) as [[[|] l]|]; simpl.
  - split_and!; split; try discriminate; auto.
    all: intros [H|H]; discriminate H.
  - split_and!; split; try discriminate; auto.
    all: intros [H|H]; discriminate H.
  - destruct (draw s).
    + split_and!; split; try discriminate; auto.
      all: intros [H|H]; discriminate H.
    + destruct (current s); simpl.
      * split_and!; split; try discriminate; auto.
        all: intros [H|H]; discriminate H.
      * split_and!; split; try discriminate; auto.
        all: intros [H|H]; discriminate H.
Qed.

(** The highlighted cells of a won game are drawn in the colour of the
    badge that announces the winner. *)
Theorem winning_cells_in_badge_colour (s : State) (i : nat) :
  isWinning s i = true →
  ∃ colour,
    cellText (index (board s) i) = "text-" +:+ colour ∧
    badgeClass s = "bg-" +:+ colour +:+ " text-white".
Proof.
  intros Hi. pose proof (highlighted_of_winner s i Hi) as (w & Hw & _ & Hc).
  unfold badgeClass. rewrite Hw, Hc.
  destruct (winner w).
  - by exists "blue-600".
  - by exists "red-600".
Qed.

Lemma winning_cells_in_badge_colour_witness :
  let s := play_all initial [0; 3; 1; 4; 2] in
  ∃ colour,
    cellText (index (board s) 1) = "text-" +:+ colour ∧
    badgeClass s = "bg-" +:+ colour +:+ " text-white".
Proof.
  cbv zeta. apply winning_cells_in_badge_colour. reflexivity.
Defined.

(** While a game is open the badge already shows the colour in which the
    next accepted click will draw its mark. *)
Theorem next_mark_in_badge_colour (s : State) (idx : nat) :
  gameOver s = false → truthy (index (board s) idx) = false →
  ∃ colour,
    badgeClass s = "bg-" +:+ colour +:+ " text-white" ∧
    cellText (index (board (playAt s idx)) idx) = "text-" +:+ colour.
Proof.
  intros Hg Ht. destruct (playAt_index s idx Hg Ht) as [-> _].
  unfold badgeClass. unfold gameOver in Hg.
  apply orb_false_iff in Hg as [Hw ->].
  destruct (winnerInfo s) as [w|]; [done|].
  destruct (current s).
  - by exists "blue-600".
  - by exists "red-600".
Qed.

Lemma next_mark_in_badge_colour_witness :
  ∃ colour,
    badgeClass (playAt initial 4) = "bg-" +:+ colour +:+ " text-white" ∧
    cellText (index (board (playAt (playAt initial 4) 0)) 0)
      = "text-" +:+ colour.
Proof.
  apply next_mark_in_badge_colour; reflexivity.
Defined.

(** ** Keys other than the restart key *)

Lemma lower_ascii_r c : lower_ascii c = "r"%char → c = "r"%char ∨ c = "R"%char.
Proof.
  destruct c as [[] [] [] [] [] [] [] []]; vm_compute;
    first [ discriminate | auto ].
Qed.

Lemma toLowerCase_r k : toLowerCase k = "r" → k = "r" ∨ k = "R".
Proof.
  destruct k as [|c [|c' k]]; simpl; try discriminate.
  intros [= H]. by destruct (lower_ascii_r c H) as [-> | ->]; [left|right].
Qed.

(** The key handler restarts on "r" and "R" only: every other key leaves
    the state as it is. *)
Theorem other_keys_do_nothing (s : State) (e : KeyboardEvent) :
  key e ≠ "r" → key e ≠ "R" → onKeyDown s e = s.
Proof.
  intros Hr HR. unfold onKeyDown.
  destruct (String.eqb (toLowerCase (key e)) "r") eqn:E; [|done].
  apply String.eqb_eq, toLowerCase_r in E as [E|E]; done.
Qed.

Lemma other_keys_do_nothing_witness :
  let s := play_all initial [4; 0; 8] in
  onKeyDown s {| key := "Enter" |} = s ∧ onKeyDown s {| key := "rr" |} = s.
Proof.
  cbv zeta. split; apply other_keys_do_nothing; discriminate.
Defined.
